(** * Navigation and view-state controller of the Nur Al-Quran reader (App.tsx)

    Shallow embedding of the reader's navigation handlers, of the async
    [loadAyah] fetch, of the swipe handlers and of the sidebar chapter
    filter.  JS numbers used as chapter and verse numbers are modelled as
    [Z]; touch coordinates as rationals [Q]; JS strings as lists of
    (ASCII) characters. *)

From Stdlib Require Import ZArith QArith Qabs Lqa Lia List String Ascii Bool.
Import ListNotations.
Open Scope Z_scope.

(** JS string values. *)
Abbreviation jsstr := (list ascii).

(** ** Data model (types.ts) *)

Record Surah := mkSurah {
  number : Z;
  name : jsstr;                   (* native-script name *)
  englishName : jsstr;            (* transliterated name *)
  englishNameTranslation : jsstr; (* translated gloss *)
  numberOfAyahs : Z
}.

Record AyahDisplayData := mkAyah {
  ad_surahNumber : Z;
  ad_ayahNumber : Z;
  ad_surahNameEnglish : jsstr;
  ad_arabicText : jsstr;
  ad_textBn : jsstr;
  ad_textEn : jsstr
}.

Inductive ViewMode := reader | search.

(** The [useState] slots of [App] that the navigation code reads or writes. *)
Record State := mkState {
  surahs : list Surah;
  currentSurah : option Surah;
  currentAyahNum : Z;
  ayahData : option AyahDisplayData;
  viewMode : ViewMode;
  isSidebarOpen : bool;
  isLoadingAyah : bool;
  error : option string
}.

Definition set_currentSurah (s : option Surah) (st : State) : State :=
  mkState st.(surahs) s st.(currentAyahNum) st.(ayahData) st.(viewMode)
          st.(isSidebarOpen) st.(isLoadingAyah) st.(error).
Definition set_currentAyahNum (n : Z) (st : State) : State :=
  mkState st.(surahs) st.(currentSurah) n st.(ayahData) st.(viewMode)
          st.(isSidebarOpen) st.(isLoadingAyah) st.(error).
Definition set_ayahData (d : option AyahDisplayData) (st : State) : State :=
  mkState st.(surahs) st.(currentSurah) st.(currentAyahNum) d st.(viewMode)
          st.(isSidebarOpen) st.(isLoadingAyah) st.(error).
Definition set_viewMode (m : ViewMode) (st : State) : State :=
  mkState st.(surahs) st.(currentSurah) st.(currentAyahNum) st.(ayahData) m
          st.(isSidebarOpen) st.(isLoadingAyah) st.(error).
Definition set_isSidebarOpen (b : bool) (st : State) : State :=
  mkState st.(surahs) st.(currentSurah) st.(currentAyahNum) st.(ayahData)
          st.(viewMode) b st.(isLoadingAyah) st.(error).
Definition set_isLoadingAyah (b : bool) (st : State) : State :=
  mkState st.(surahs) st.(currentSurah) st.(currentAyahNum) st.(ayahData)
          st.(viewMode) st.(isSidebarOpen) b st.(error).
Definition set_error (e : option string) (st : State) : State :=
  mkState st.(surahs) st.(currentSurah) st.(currentAyahNum) st.(ayahData)
          st.(viewMode) st.(isSidebarOpen) st.(isLoadingAyah) e.

(** ** [loadAyah] (App.tsx, lines 108-125)

    The callback is split at its [await]: [loadAyah_start] runs the
    synchronous prefix, and returns the pending request, which records the
    requested coordinate and the values [surahs] and [currentSurah] that the
    [useCallback] closure captured.  [loadAyah_resolve] runs the rest when
    [QuranService.getAyah] settles: [Some data] on fulfilment, [None] on
    rejection. *)

Record Pending := mkPending {
  p_surahs : list Surah;
  p_currentSurah : option Surah;
  p_surahNum : Z;
  p_ayahNum : Z
}.

Definition loadAyah_error_msg : string :=
  "Could not load Ayah. It might not exist or network is down.".

Definition loadAyah_start (st : State) (surahNum ayahNum : Z) : State * Pending :=
  (set_error None (set_isLoadingAyah true st),
   mkPending st.(surahs) st.(currentSurah) surahNum ayahNum).

Definition loadAyah_resolve (p : Pending) (resp : option AyahDisplayData)
    (st : State) : State :=
  let st' :=
    match resp with
    | Some data =>
        let st1 := set_currentAyahNum p.(p_ayahNum) (set_ayahData (Some data) st) in
        let stale := match p.(p_currentSurah) with
                     | None => true
                     | Some cs => negb (cs.(number) =? p.(p_surahNum))
                     end in
        if stale then
          match find (fun s => s.(number) =? p.(p_surahNum)) p.(p_surahs) with
          | Some found => set_currentSurah (Some found) st1
          | None => st1
          end
        else st1
    | None => set_error (Some loadAyah_error_msg) st
    end in
  (* finally *)
  set_isLoadingAyah false st'.

(** A verse-data provider, answering [getAyah(surahNum, ayahNum)]. *)
Definition Provider := Z -> Z -> option AyahDisplayData.

(** [loadAyah] when its request settles before any other event. *)
Definition loadAyah (prov : Provider) (st : State) (surahNum ayahNum : Z) : State :=
  let '(st1, p) := loadAyah_start st surahNum ayahNum in
  loadAyah_resolve p (prov surahNum ayahNum) st1.

(** ** Navigation handlers (App.tsx, lines 185-209, 241-252)

    A handler's call of [loadAyah(s, a)] is returned as [Some (s, a)];
    [None] means that the handler returned without calling it.  These
    handlers write no other state slot. *)

Definition handleNextAyah (st : State) : option (Z * Z) :=
  match st.(currentSurah) with
  | None => None
  | Some cs =>
      if st.(currentAyahNum) <? cs.(numberOfAyahs) then
        Some (cs.(number), st.(currentAyahNum) + 1)
      else if cs.(number) <? 114 then Some (cs.(number) + 1, 1)
      else None
  end.

Definition handlePrevAyah (st : State) : option (Z * Z) :=
  match st.(currentSurah) with
  | None => None
  | Some cs =>
      if 1 <? st.(currentAyahNum) then
        Some (cs.(number), st.(currentAyahNum) - 1)
      else if 1 <? cs.(number) then Some (cs.(number) - 1, 1)
      else None
  end.

(** Run a handler's optional [loadAyah] call against a provider. *)
Definition run_nav (prov : Provider) (st : State) (cmd : option (Z * Z)) : State :=
  match cmd with
  | None => st
  | Some (s, a) => loadAyah prov st s a
  end.

(** ** [parseInt] with no radix (ECMAScript, sec. 19.2.5), on ASCII input

    Leading white space is skipped, one sign is taken, a [0x]/[0X] prefix
    selects radix 16, and the longest prefix of digits of the radix is read.
    [None] stands for [NaN] (no digit read). *)

Definition is_js_space (c : ascii) : bool :=
  match nat_of_ascii c with
  | 9 | 10 | 11 | 12 | 13 | 32 => true
  | _ => false
  end%nat.

Fixpoint trim_start (s : jsstr) : jsstr :=
  match s with
  | c :: s' => if is_js_space c then trim_start s' else s
  | [] => []
  end.

Definition digit_value (radix : Z) (c : ascii) : option Z :=
  let n := Z.of_nat (nat_of_ascii c) in
  let v := if (48 <=? n) && (n <=? 57) then Some (n - 48)
           else if (97 <=? n) && (n <=? 122) then Some (n - 87)
           else if (65 <=? n) && (n <=? 90) then Some (n - 55)
           else None in
  match v with
  | Some d => if d <? radix then Some d else None
  | None => None
  end.

(** The value of the longest digit prefix of [s], accumulated onto [acc];
    [None] when [s] does not start with a digit. *)
Fixpoint read_digits (radix : Z) (s : jsstr) (acc : option Z) : option Z :=
  match s with
  | c :: s' =>
      match digit_value radix c with
      | Some d =>
          read_digits radix s'
            (Some (radix * match acc with Some a => a | None => 0 end + d))
      | None => acc
      end
  | [] => acc
  end.

Definition take_sign (s : jsstr) : Z * jsstr :=
  match s with
  | "-"%char :: s' => (-1, s')
  | "+"%char :: s' => (1, s')
  | _ => (1, s)
  end.

Definition take_radix (s : jsstr) : Z * jsstr :=
  match s with
  | "0"%char :: ("x"%char | "X"%char) :: s' => (16, s')
  | _ => (10, s)
  end.

Definition parseInt (input : jsstr) : option Z :=
  let '(sign, s) := take_sign (trim_start input) in
  let '(radix, s) := take_radix s in
  option_map (fun v => sign * v) (read_digits radix s None).

(** [handleJumpToAyah] reads [e.target.value] of the verse-number input. *)
Definition handleJumpToAyah (value : jsstr) (st : State) : option (Z * Z) :=
  let num := parseInt value in
  match st.(currentSurah), num with
  | None, _ => None
  | _, None => None
  | Some cs, Some n =>
      if (0 <? n) && (n <=? cs.(numberOfAyahs)) then Some (cs.(number), n)
      else None
  end.

(** Composite handlers: the synchronous state writes, then the [loadAyah]
    call (its closure reads the state of the render the handler belongs to). *)
Definition selectSearchResult (surahNum ayahNum : Z) (st : State)
    : (State -> State) * option (Z * Z) :=
  (fun st => set_isSidebarOpen false (set_viewMode reader st),
   Some (surahNum, ayahNum)).

Definition selectSurahFromList (surah : Surah) (st : State)
    : (State -> State) * option (Z * Z) :=
  (fun st => set_isSidebarOpen false
               (set_currentSurah (Some surah) (set_viewMode reader st)),
   Some (surah.(number), 1)).

Definition run_handler (prov : Provider) (st : State)
    (h : (State -> State) * option (Z * Z)) : State :=
  let '(upd, cmd) := h in
  match cmd with
  | None => upd st
  | Some (s, a) =>
      let p := mkPending st.(surahs) st.(currentSurah) s a in
      loadAyah_resolve p (prov s a)
        (set_error None (set_isLoadingAyah true (upd st)))
  end.

(** ** Swipe handlers (App.tsx, lines 54-57, 212-239)

    The four [useRef]s; [None] is [null].  A JS number is falsy when it is
    [0] (or [NaN], which a [clientX] never is). *)

Record TouchRefs := mkTouch {
  touchStartX : option Q;
  touchStartY : option Q;
  touchEndX : option Q;
  touchEndY : option Q
}.

(** The refs' initial value. *)
Definition r0 : TouchRefs := mkTouch None None None None.

Definition falsy (x : option Q) : bool :=
  match x with None => true | Some v => Qeq_bool v 0 end.

(** [x || 0] *)
Definition or_zero (x : option Q) : Q :=
  match x with None => 0%Q | Some v => if Qeq_bool v 0 then 0%Q else v end.

Definition onTouchStart (x y : Q) (r : TouchRefs) : TouchRefs :=
  mkTouch (Some x) (Some y) None None.

Definition onTouchMove (x y : Q) (r : TouchRefs) : TouchRefs :=
  mkTouch r.(touchStartX) r.(touchStartY) (Some x) (Some y).

Inductive SwipeNav := NextAyah | PrevAyah.

Definition Qgt_bool (a b : Q) : bool := negb (Qle_bool a b).

(** [onTouchEnd]: which navigation handler it calls, if any. *)
Definition onTouchEnd (r : TouchRefs) : option SwipeNav :=
  if falsy r.(touchStartX) || falsy r.(touchEndX) then None
  else
    let xDist := (or_zero r.(touchStartX) - or_zero r.(touchEndX))%Q in
    let yDist := (or_zero r.(touchStartY) - or_zero r.(touchEndY))%Q in
    let minSwipeDistance := 50%Q in
    if Qgt_bool (Qabs xDist) minSwipeDistance && Qgt_bool (Qabs xDist) (Qabs yDist)
    then (if Qgt_bool xDist 0 then Some NextAyah else Some PrevAyah)
    else None.

(** A gesture: touch start at [(sx, sy)], a move ending at [(ex, ey)],
    touch end. *)
Definition gesture (r : TouchRefs) (sx sy ex ey : Q) : option SwipeNav :=
  onTouchEnd (onTouchMove ex ey (onTouchStart sx sy r)).

(** A run of [touchmove] events, in order, as points. *)
Definition onTouchMoves (ms : list (Q * Q)) (r : TouchRefs) : TouchRefs :=
  fold_left (fun r' m => onTouchMove (fst m) (snd m) r') ms r.

Definition swipe_handler (n : option SwipeNav) (st : State) : option (Z * Z) :=
  match n with
  | Some NextAyah => handleNextAyah st
  | Some PrevAyah => handlePrevAyah st
  | None => None
  end.

(** ** Sidebar chapter filter (App.tsx, lines 255-260) *)

(** [String.prototype.includes]: [q] occurs in [h] at some offset. *)
Fixpoint prefixb (q h : jsstr) : bool :=
  match q, h with
  | [], _ => true
  | c :: q', d :: h' => Ascii.eqb c d && prefixb q' h'
  | _ :: _, [] => false
  end.

Fixpoint includes (h q : jsstr) : bool :=
  prefixb q h || match h with [] => false | _ :: h' => includes h' q end.

(** [String.prototype.toLowerCase] on ASCII. *)
Definition lower_char (c : ascii) : ascii :=
  let n := nat_of_ascii c in
  if (65 <=? n)%nat && (n <=? 90)%nat then ascii_of_nat (n + 32) else c.

Definition toLowerCase (s : jsstr) : jsstr := map lower_char s.

(** [Number.prototype.toString()] for an integer: its decimal text. *)
(** The character of decimal digit [d]. *)
Definition dchar (d : Z) : ascii := ascii_of_nat (48 + Z.to_nat d).

Fixpoint digits_rev (fuel : nat) (n : Z) : jsstr :=
  let d := dchar (n mod 10) in
  match fuel with
  | O => [d]
  | S f => if n <? 10 then [d] else d :: digits_rev f (n / 10)
  end.

Definition toString (n : Z) : jsstr :=
  let a := Z.abs n in
  let ds := rev (digits_rev (Z.to_nat (Z.log2 a)) a) in
  if n <? 0 then "-"%char :: ds else ds.

Definition surah_matches (surahQuery : jsstr) (s : Surah) : bool :=
  includes (toString s.(number)) surahQuery ||
  includes (toLowerCase s.(englishName)) (toLowerCase surahQuery) ||
  includes (toLowerCase s.(englishNameTranslation)) (toLowerCase surahQuery) ||
  includes s.(name) surahQuery.

Definition filteredSurahs (surahs : list Surah) (surahQuery : jsstr) : list Surah :=
  filter (surah_matches surahQuery) surahs.

(** ** The rest of [App]'s state and its other async handlers
    (App.tsx, lines 12-51, 80-90, 128-182) *)

Inductive Language := bn | en.

Record SearchResult := mkResult {
  sr_surahNumber : Z;
  sr_ayahNumber : Z;
  sr_confidenceScore : Z;
  sr_reasoning : jsstr
}.

(** Generated texts: [App] stores them and hands them to the modals
    without reading their fields. *)
Record TafsirData := mkTafsir { tafsir_body : jsstr }.
Record SurahOverviewData := mkOverview { overview_body : jsstr }.

Record AppState := mkApp {
  nav : State;
  language : Language;
  searchQuery : jsstr;
  searchResults : list SearchResult;
  isSearching : bool;
  isTafsirOpen : bool;
  tafsirData : option TafsirData;
  isLoadingTafsir : bool;
  isOverviewOpen : bool;
  overviewData : option SurahOverviewData;
  isLoadingOverview : bool
}.

Definition set_surahs (l : list Surah) (st : State) : State :=
  mkState l st.(currentSurah) st.(currentAyahNum) st.(ayahData) st.(viewMode)
          st.(isSidebarOpen) st.(isLoadingAyah) st.(error).

Definition set_nav (n : State) (a : AppState) : AppState :=
  mkApp n a.(language) a.(searchQuery) a.(searchResults) a.(isSearching)
        a.(isTafsirOpen) a.(tafsirData) a.(isLoadingTafsir) a.(isOverviewOpen)
        a.(overviewData) a.(isLoadingOverview).
Definition set_isTafsirOpen (b : bool) (a : AppState) : AppState :=
  mkApp a.(nav) a.(language) a.(searchQuery) a.(searchResults) a.(isSearching)
        b a.(tafsirData) a.(isLoadingTafsir) a.(isOverviewOpen)
        a.(overviewData) a.(isLoadingOverview).
Definition set_tafsirData (t : option TafsirData) (a : AppState) : AppState :=
  mkApp a.(nav) a.(language) a.(searchQuery) a.(searchResults) a.(isSearching)
        a.(isTafsirOpen) t a.(isLoadingTafsir) a.(isOverviewOpen)
        a.(overviewData) a.(isLoadingOverview).
Definition set_isLoadingTafsir (b : bool) (a : AppState) : AppState :=
  mkApp a.(nav) a.(language) a.(searchQuery) a.(searchResults) a.(isSearching)
        a.(isTafsirOpen) a.(tafsirData) b a.(isOverviewOpen)
        a.(overviewData) a.(isLoadingOverview).
Definition set_isOverviewOpen (b : bool) (a : AppState) : AppState :=
  mkApp a.(nav) a.(language) a.(searchQuery) a.(searchResults) a.(isSearching)
        a.(isTafsirOpen) a.(tafsirData) a.(isLoadingTafsir) b
        a.(overviewData) a.(isLoadingOverview).
Definition set_overviewData (o : option SurahOverviewData) (a : AppState) : AppState :=
  mkApp a.(nav) a.(language) a.(searchQuery) a.(searchResults) a.(isSearching)
        a.(isTafsirOpen) a.(tafsirData) a.(isLoadingTafsir) a.(isOverviewOpen)
        o a.(isLoadingOverview).
Definition set_isLoadingOverview (b : bool) (a : AppState) : AppState :=
  mkApp a.(nav) a.(language) a.(searchQuery) a.(searchResults) a.(isSearching)
        a.(isTafsirOpen) a.(tafsirData) a.(isLoadingTafsir) a.(isOverviewOpen)
        a.(overviewData) b.

(** [setError], whose slot the handlers share. *)
Definition app_setError (e : option string) (a : AppState) : AppState :=
  set_nav (set_error e a.(nav)) a.

(** Initial load: [fetchSurahs] once [QuranService.getAllSurahs] settles. *)
Definition fetchSurahs_error_msg : string :=
  "Failed to load Surah list. Please check your connection.".

Definition fetchSurahs_resolve (resp : option (list Surah)) (st : State) : State :=
  match resp with
  | Some list => set_surahs list st
  | None => set_error (Some fetchSurahs_error_msg) st
  end.









Definition tafsir_error_msg : string := "Failed to generate Tafsir.".

(** [GeminiService.generateTafsir(ayahData, language)]. *)
Definition TafsirProvider := AyahDisplayData -> Language -> option TafsirData.

Definition handleViewTafsir_start (a : AppState) : option (AppState * AyahDisplayData) :=
  match a.(nav).(ayahData) with
  | None => None
  | Some d =>
      Some (set_tafsirData None (set_isLoadingTafsir true (set_isTafsirOpen true a)), d)
  end.

Definition handleViewTafsir_resolve (resp : option TafsirData) (a : AppState) : AppState :=
  let a' :=
    match resp with
    | Some t => set_tafsirData (Some t) a
    | None => set_isTafsirOpen false (app_setError (Some tafsir_error_msg) a)
    end in
  set_isLoadingTafsir false a'.

Definition handleViewTafsir (prov : TafsirProvider) (a : AppState) : AppState :=
  match handleViewTafsir_start a with
  | None => a
  | Some (a1, d) => handleViewTafsir_resolve (prov d a.(language)) a1
  end.

Definition overview_error_msg : string := "Failed to load overview.".

(** [GeminiService.generateSurahOverview(englishName, number, language)]. *)
Definition OverviewProvider :=
  jsstr -> Z -> Language -> option SurahOverviewData.

Definition handleSurahOverview_start (a : AppState)
    : option (AppState * (jsstr * Z * Language)) :=
  match a.(nav).(currentSurah) with
  | None => None
  | Some cs =>
      Some (set_overviewData None (set_isLoadingOverview true (set_isOverviewOpen true a)),
            (cs.(englishName), cs.(number), a.(language)))
  end.

Definition handleSurahOverview_resolve (resp : option SurahOverviewData)
    (a : AppState) : AppState :=
  let a' :=
    match resp with
    | Some o => set_overviewData (Some o) a
    | None => set_isOverviewOpen false (app_setError (Some overview_error_msg) a)
    end in
  set_isLoadingOverview false a'.

Definition handleSurahOverview (prov : OverviewProvider) (a : AppState) : AppState :=
  match handleSurahOverview_start a with
  | None => a
  | Some (a1, (n, num, lang)) => handleSurahOverview_resolve (prov n num lang) a1
  end.

(** ** Preferences in [localStorage] (App.tsx, lines 15-22, 63-77)

    The store as an association list; [setItem] overwrites the entry of
    an existing key in place. *)

Definition Storage := list (string * jsstr).

Definition getItem (k : string) (s : Storage) : option jsstr :=
  match find (fun kv => String.eqb (fst kv) k) s with
  | Some (_, v) => Some v
  | None => None
  end.

(** [k in localStorage] *)
Definition hasKey (k : string) (s : Storage) : bool :=
  existsb (fun kv => String.eqb (fst kv) k) s.

Definition setItem (k : string) (v : jsstr) (s : Storage) : Storage :=
  if hasKey k s
  then map (fun kv => if String.eqb (fst kv) k then (k, v) else kv) s
  else s ++ [(k, v)].

Definition jsstr_eqb (a b : jsstr) : bool :=
  if list_eq_dec ascii_dec a b then true else false.

(** Initial [darkMode], given [matchMedia('(prefers-color-scheme: dark)')]. *)
Definition darkMode_init (s : Storage) (prefersDark : bool) : bool :=
  match getItem "theme" s with
  | Some v => jsstr_eqb v (list_ascii_of_string "dark")
  | None => false
  end || (negb (hasKey "theme" s) && prefersDark).

(** The dark-mode effect's write. *)
Definition persist_theme (darkMode : bool) (s : Storage) : Storage :=
  setItem "theme" (list_ascii_of_string (if darkMode then "dark" else "light")) s.

(** [x || dflt] on a [getItem] result: [null] and [""] are falsy. *)
Definition or_default (v : option jsstr) (dflt : jsstr) : jsstr :=
  match v with
  | Some (c :: cs) => c :: cs
  | _ => dflt
  end.

(** Font sizes are JS numbers: [None] is [NaN]. *)
Definition arabicFontSize_init (s : Storage) : option Z :=
  parseInt (or_default (getItem "arabicFontSize" s) (list_ascii_of_string "36")).

Definition translationFontSize_init (s : Storage) : option Z :=
  parseInt (or_default (getItem "translationFontSize" s) (list_ascii_of_string "18")).

(** [Number.prototype.toString()] of an integer or [NaN]. *)
Definition number_toString (n : option Z) : jsstr :=
  match n with
  | Some z => toString z
  | None => list_ascii_of_string "NaN"
  end.

(** [Number.prototype.toString()] writes integers of magnitude [10^21] or
    more in exponent notation; [toString] covers the plain decimal form. *)
Definition plain_decimal (n : option Z) : bool :=
  match n with
  | Some z => Z.abs z <? 10 ^ 21
  | None => true
  end.

(** The font-size effect's writes. *)
Definition persist_fonts (arabic translation : option Z) (s : Storage) : Storage :=
  setItem "translationFontSize" (number_toString translation)
    (setItem "arabicFontSize" (number_toString arabic) s).

(** ** Navigation steps run against a provider *)

Definition advance_step (prov : Provider) (st : State) : State :=
  run_nav prov st (handleNextAyah st).

Definition retreat_step (prov : Provider) (st : State) : State :=
  run_nav prov st (handlePrevAyah st).

Fixpoint iterate {A : Type} (f : A -> A) (k : nat) (x : A) : A :=
  match k with
  | O => x
  | S k' => iterate f k' (f x)
  end.

(** ** The chapter filter as the specification words it (section 4.2)

    A query occurs in a text; it occurs up to ASCII letter case; a chapter
    is visible when the query occurs in its number's decimal text or in its
    native-script name, or occurs up to case in its transliterated name or
    in its translated gloss. *)





(** ** Sample data: chapters 1 and 9 of the list served by the API *)

Definition surah1 : Surah :=
  mkSurah 1 (list_ascii_of_string "alfatiha") (list_ascii_of_string "Al-Faatiha")
          (list_ascii_of_string "The Opening") 7.

Definition surah9 : Surah :=
  mkSurah 9 (list_ascii_of_string "attawba") (list_ascii_of_string "At-Tawba")
          (list_ascii_of_string "The Repentance") 129.

(** Before the first navigation: no current chapter. *)
Definition st_empty : State :=
  mkState [surah1; surah9] None 1 None search false false None.

(** Reading verse 1 of chapter 1, chapters 1 and 9 loaded. *)
Definition st_demo : State :=
  mkState [surah1; surah9] (Some surah1) 1 None reader false false None.

(** Reading the last verse of chapter 1, and the last verse of chapter 114. *)
Definition st_end1 : State :=
  mkState [surah1; surah9] (Some surah1) 7 None reader false false None.

Definition surah114 : Surah :=
  mkSurah 114 (list_ascii_of_string "annas") (list_ascii_of_string "An-Naas")
          (list_ascii_of_string "Mankind") 6.

Definition st_end114 : State :=
  mkState [surah114] (Some surah114) 6 None reader false false None.

(** A provider whose every request is rejected. *)
Definition prov_down : Provider := fun _ _ => None.

(** A provider that answers every request with a record of the requested
    position. *)
Definition prov_echo : Provider := fun s a => Some (mkAyah s a [] [] [] []).

Definition surah2 : Surah :=
  mkSurah 2 (list_ascii_of_string "albaqara") (list_ascii_of_string "Al-Baqara")
          (list_ascii_of_string "The Cow") 286.

(** Reading verse 1 of chapter 1, chapters 1 and 2 loaded. *)
Definition st_start1 : State :=
  mkState [surah1; surah2] (Some surah1) 1 None reader false false None.

(** Reading verse 100 of chapter 9. *)
Definition st_mid9 : State :=
  mkState [surah1; surah9] (Some surah9) 100 None reader false false None.

(** The chapter list never arrived and no chapter is current. *)
Definition st_blank : State :=
  mkState [] None 1 None search false false None.

(** * Properties *)

(** ** Navigation *)

Lemma run_nav_none (prov : Provider) (st : State) : run_nav prov st None = st.
Proof. reflexivity. Qed.

Lemma run_nav_some (prov : Provider) (st : State) (s a : Z) :
  run_nav prov st (Some (s, a)) = loadAyah prov st s a.
Proof. reflexivity. Qed.

Ltac nav_cases :=
  repeat match goal with
  | |- context [if ?b then _ else _] =>
      let E := fresh "E" in destruct b eqn:E
  end;
  rewrite ?Z.ltb_lt, ?Z.ltb_ge in *;
  try lia; try reflexivity;
  try (split; [reflexivity | intro; reflexivity]).

(** C1: with current chapter [c] and verse [v], [handleNextAyah] calls
    [loadAyah(c.number, v+1)] when [v < c.numberOfAyahs], calls
    [loadAyah(c.number+1, 1)] when [v = c.numberOfAyahs] and
    [c.number < 114], and does nothing when [v = c.numberOfAyahs] and
    [c.number = 114]. *)
Theorem handleNextAyah_cases (st : State) (c : Surah)
    (Hc : currentSurah st = Some c) :
  (currentAyahNum st < numberOfAyahs c ->
     handleNextAyah st = Some (number c, currentAyahNum st + 1)) /\
  (currentAyahNum st = numberOfAyahs c -> number c < 114 ->
     handleNextAyah st = Some (number c + 1, 1)) /\
  (currentAyahNum st = numberOfAyahs c -> number c = 114 ->
     handleNextAyah st = None /\
     forall prov, run_nav prov st (handleNextAyah st) = st).
Proof.
  unfold handleNextAyah; rewrite Hc.
  split; [|split]; intros; nav_cases.
Qed.

(** C2: with current chapter [c] and verse [v], [handlePrevAyah] calls
    [loadAyah(c.number, v-1)] when [v > 1], calls [loadAyah(c.number-1, 1)]
    (verse 1 of the previous chapter) when [v = 1] and [c.number > 1], and
    does nothing when [v = 1] and [c.number = 1]. *)
Theorem handlePrevAyah_cases (st : State) (c : Surah)
    (Hc : currentSurah st = Some c) :
  (1 < currentAyahNum st ->
     handlePrevAyah st = Some (number c, currentAyahNum st - 1)) /\
  (currentAyahNum st = 1 -> 1 < number c ->
     handlePrevAyah st = Some (number c - 1, 1)) /\
  (currentAyahNum st = 1 -> number c = 1 ->
     handlePrevAyah st = None /\
     forall prov, run_nav prov st (handlePrevAyah st) = st).
Proof.
  unfold handlePrevAyah; rewrite Hc.
  split; [|split]; intros; nav_cases.
Qed.

(** C9: with no current chapter, [handleNextAyah], [handlePrevAyah] and
    [handleJumpToAyah] (for any input) call nothing and change no state. *)
Theorem nav_without_chapter_noop (st : State)
    (Hnone : currentSurah st = None) :
  handleNextAyah st = None /\ handlePrevAyah st = None /\
  (forall value, handleJumpToAyah value st = None) /\
  (forall prov,
     run_nav prov st (handleNextAyah st) = st /\
     run_nav prov st (handlePrevAyah st) = st /\
     (forall value, run_nav prov st (handleJumpToAyah value st) = st)).
Proof.
  unfold handleNextAyah, handlePrevAyah, handleJumpToAyah; rewrite Hnone.
  repeat split.
Qed.

(** ** Failed verse fetch *)

(** C5: when [getAyah] rejects, [loadAyah] leaves the verse record and the
    position as they were, sets the error message, and ends with the
    loading flag false; its settlement issues no further request (it
    yields a state only).  This holds both for a request that settles
    before any other event and for one that settles after other state
    changes ([st'] is the state at settlement). *)
Theorem loadAyah_rejected (prov : Provider) (st : State) (s a : Z)
    (Hrej : prov s a = None) :
  (let st2 := loadAyah prov st s a in
   ayahData st2 = ayahData st /\ currentSurah st2 = currentSurah st /\
   currentAyahNum st2 = currentAyahNum st /\
   error st2 = Some loadAyah_error_msg /\ isLoadingAyah st2 = false) /\
  (let '(st1, p) := loadAyah_start st s a in
   isLoadingAyah st1 = true /\
   forall st',
     let st2 := loadAyah_resolve p None st' in
     ayahData st2 = ayahData st' /\ currentSurah st2 = currentSurah st' /\
     currentAyahNum st2 = currentAyahNum st' /\
     error st2 = Some loadAyah_error_msg /\ isLoadingAyah st2 = false).
Proof.
  unfold loadAyah, loadAyah_start, loadAyah_resolve; rewrite Hrej.
  repeat split.
Qed.

(** ** Swipe gestures *)

Section Gestures.
Local Open Scope Q_scope.

Lemma Qgt_bool_iff (a b : Q) : Qgt_bool a b = true <-> b < a.
Proof.
  unfold Qgt_bool; rewrite negb_true_iff; split; intro H.
  - apply Qnot_le_lt; intro H'; apply Qle_bool_iff in H'; congruence.
  - destruct (Qle_bool a b) eqn:E; [|reflexivity].
    apply Qle_bool_iff in E; exfalso; apply (Qlt_not_le _ _ H E).
Qed.

Lemma Qgt_bool_false (a b : Q) : Qgt_bool a b = false <-> a <= b.
Proof.
  split; intro H.
  - apply Qnot_lt_le; intro H'; apply Qgt_bool_iff in H'; congruence.
  - destruct (Qgt_bool a b) eqn:E; [|reflexivity].
    apply Qgt_bool_iff in E; exfalso; apply (Qlt_not_le _ _ E H).
Qed.

Lemma Qgt_bool_wd (a a' b b' : Q) :
  a == a' -> b == b' -> Qgt_bool a b = Qgt_bool a' b'.
Proof.
  intros Ha Hb; destruct (Qgt_bool a' b') eqn:E.
  - apply Qgt_bool_iff in E; apply Qgt_bool_iff; rewrite Ha, Hb; exact E.
  - apply Qgt_bool_false in E; apply Qgt_bool_false; rewrite Ha, Hb; exact E.
Qed.

Lemma or_zero_some (v : Q) : or_zero (Some v) == v.
Proof.
  unfold or_zero; destruct (Qeq_bool v 0) eqn:E; [|reflexivity].
  apply Qeq_bool_iff in E; rewrite E; reflexivity.
Qed.

Lemma falsy_some_nonzero (v : Q) : ~ v == 0 -> falsy (Some v) = false.
Proof.
  intro H; unfold falsy; destruct (Qeq_bool v 0) eqn:E; [|reflexivity].
  apply Qeq_bool_iff in E; contradiction.
Qed.

Lemma falsy_some_zero (v : Q) : v == 0 -> falsy (Some v) = true.
Proof. intro H; apply Qeq_bool_iff; exact H. Qed.

(** With non-zero start and end abscissae, the gesture compares the
    displacement [start - end]. *)
Lemma gesture_nonzero (r : TouchRefs) (sx sy ex ey : Q) :
  ~ sx == 0 -> ~ ex == 0 ->
  gesture r sx sy ex ey =
    if Qgt_bool (Qabs (sx - ex)) 50 && Qgt_bool (Qabs (sx - ex)) (Qabs (sy - ey))
    then (if Qgt_bool (sx - ex) 0 then Some NextAyah else Some PrevAyah)
    else None.
Proof.
  intros Hs He; unfold gesture, onTouchEnd, onTouchMove, onTouchStart;
    cbn [touchStartX touchStartY touchEndX touchEndY].
  rewrite (falsy_some_nonzero sx Hs), (falsy_some_nonzero ex He).
  cbn [orb]; cbv zeta.
  assert (Hx : or_zero (Some sx) - or_zero (Some ex) == sx - ex)
    by (rewrite !or_zero_some; reflexivity).
  assert (Hy : or_zero (Some sy) - or_zero (Some ey) == sy - ey)
    by (rewrite !or_zero_some; reflexivity).
  set (X := or_zero (Some sx) - or_zero (Some ex)) in *.
  set (Y := or_zero (Some sy) - or_zero (Some ey)) in *.
  rewrite (Qgt_bool_wd (Qabs X) (Qabs (sx - ex)) 50 50)
    by (try rewrite Hx; reflexivity).
  rewrite (Qgt_bool_wd (Qabs X) (Qabs (sx - ex)) (Qabs Y) (Qabs (sy - ey)))
    by (try rewrite Hx; try rewrite Hy; reflexivity).
  rewrite (Qgt_bool_wd X (sx - ex) 0 0) by (try rewrite Hx; reflexivity).
  reflexivity.
Qed.

Lemma gesture_zero (r : TouchRefs) (sx sy ex ey : Q) :
  sx == 0 \/ ex == 0 -> gesture r sx sy ex ey = None.
Proof.
  intros [H | H]; unfold gesture, onTouchEnd, onTouchMove, onTouchStart;
    cbn [touchStartX touchStartY touchEndX touchEndY].
  - rewrite (falsy_some_zero sx H); reflexivity.
  - rewrite (falsy_some_zero ex H), orb_true_r; reflexivity.
Qed.

End Gestures.

Section GestureClaims.
Local Open Scope Q_scope.

(** C6 (as stated, refuted): with [dx = endX - startX], a swipe with
    [dx = 100 > 50] and [dy = 0] should call [handleNextAyah]; the code
    computes [xDist = startX - endX] and calls [handlePrevAyah]. *)
Lemma gesture_right_swipe_goes_back :
  let sx := 100 in let sy := 0 in let ex := 200 in let ey := 0 in
  50 < Qabs (ex - sx) /\ Qabs (ey - sy) < Qabs (ex - sx) /\ 0 < ex - sx /\
  gesture r0 sx sy ex ey = Some PrevAyah /\
  gesture r0 sx sy ex ey <> Some NextAyah.
Proof.
  cbv zeta; split; [|split; [|split; [|split]]].
  - reflexivity.
  - reflexivity.
  - reflexivity.
  - vm_compute; reflexivity.
  - vm_compute; discriminate.
Qed.

(** C6 (amended): for a gesture whose start and end abscissae are
    non-zero, with [dx = endX - startX] and [dy = endY - startY], if
    [|dx| > 50] and [|dx| > |dy|] then a leftward swipe ([dx < 0]) calls
    [handleNextAyah] and a rightward swipe ([dx > 0]) calls
    [handlePrevAyah]. *)
Theorem gesture_horizontal_swipe (r : TouchRefs) (sx sy ex ey : Q)
    (Hsx : ~ sx == 0) (Hex : ~ ex == 0)
    (Hthr : 50 < Qabs (ex - sx)) (Hdom : Qabs (ey - sy) < Qabs (ex - sx)) :
  (ex - sx < 0 -> gesture r sx sy ex ey = Some NextAyah /\
     forall st, swipe_handler (gesture r sx sy ex ey) st = handleNextAyah st) /\
  (0 < ex - sx -> gesture r sx sy ex ey = Some PrevAyah /\
     forall st, swipe_handler (gesture r sx sy ex ey) st = handlePrevAyah st).
Proof.
  rewrite (gesture_nonzero r sx sy ex ey Hsx Hex).
  rewrite (Qabs_Qminus sx ex), (Qabs_Qminus sy ey).
  apply Qgt_bool_iff in Hthr, Hdom; rewrite Hthr, Hdom; cbn [andb].
  split; intro Hd.
  - assert (Hp : Qgt_bool (sx - ex) 0 = true) by (apply Qgt_bool_iff; lra).
    rewrite Hp; split; reflexivity.
  - assert (Hp : Qgt_bool (sx - ex) 0 = false) by (apply Qgt_bool_false; lra).
    rewrite Hp; split; reflexivity.
Qed.

(** C7: a gesture with [|dx| <= 50] or [|dx| <= |dy|] calls no navigation
    handler, so no [loadAyah] call and no state change. *)
Theorem gesture_no_navigation (r : TouchRefs) (sx sy ex ey : Q)
    (Hsmall : Qabs (ex - sx) <= 50 \/ Qabs (ex - sx) <= Qabs (ey - sy)) :
  gesture r sx sy ex ey = None /\
  forall prov st,
    swipe_handler (gesture r sx sy ex ey) st = None /\
    run_nav prov st (swipe_handler (gesture r sx sy ex ey) st) = st.
Proof.
  assert (Hg : gesture r sx sy ex ey = None).
  { destruct (Qeq_dec sx 0) as [Hs | Hs]; [now apply gesture_zero; left|].
    destruct (Qeq_dec ex 0) as [He | He]; [now apply gesture_zero; right|].
    rewrite (gesture_nonzero r sx sy ex ey Hs He).
    rewrite (Qabs_Qminus sx ex), (Qabs_Qminus sy ey).
    destruct Hsmall as [H | H]; apply Qgt_bool_false in H; rewrite H;
      [reflexivity | now rewrite andb_false_r]. }
  rewrite Hg; split; [reflexivity | intros; split; reflexivity].
Qed.

(** C10: when the start or the end abscissa is exactly [0], the gesture
    calls no navigation handler, whatever the displacements. *)
Theorem gesture_zero_abscissa_ignored (r : TouchRefs) (sx sy ex ey : Q)
    (Hzero : sx == 0 \/ ex == 0) :
  gesture r sx sy ex ey = None /\
  forall prov st,
    swipe_handler (gesture r sx sy ex ey) st = None /\
    run_nav prov st (swipe_handler (gesture r sx sy ex ey) st) = st.
Proof.
  rewrite (gesture_zero r sx sy ex ey Hzero).
  split; [reflexivity | intros; split; reflexivity].
Qed.

End GestureClaims.

(** ** [parseInt] on the decimal text of an integer *)

Definition is_dchar (c : ascii) : Prop := exists d, 0 <= d < 10 /\ c = dchar d.

Lemma digit_cases (d : Z) :
  0 <= d < 10 ->
  d = 0 \/ d = 1 \/ d = 2 \/ d = 3 \/ d = 4 \/ d = 5 \/ d = 6 \/ d = 7 \/
  d = 8 \/ d = 9.
Proof. lia. Qed.

Lemma dchar_facts (d : Z) (s : jsstr) :
  0 <= d < 10 ->
  digit_value 10 (dchar d) = Some d /\ is_js_space (dchar d) = false /\
  take_sign (dchar d :: s) = (1, dchar d :: s).
Proof.
  intro H; apply digit_cases in H;
    repeat destruct H as [H | H]; subst; repeat split.
Qed.

Lemma take_radix_digits (c : ascii) (s : jsstr) :
  is_dchar c -> Forall is_dchar s -> take_radix (c :: s) = (10, c :: s).
Proof.
  intros [d [Hd ->]] Hs; apply digit_cases in Hd;
    repeat destruct Hd as [Hd | Hd]; subst; try reflexivity.
  destruct s as [|c2 s]; [reflexivity|].
  inversion Hs as [|? ? [d2 [Hd2 ->]] _]; subst.
  apply digit_cases in Hd2; repeat destruct Hd2 as [Hd2 | Hd2]; subst; reflexivity.
Qed.

Lemma read_digits_app (s t : jsstr) (acc : option Z) :
  Forall is_dchar s ->
  read_digits 10 (s ++ t) acc = read_digits 10 t (read_digits 10 s acc).
Proof.
  intro Hs; revert acc; induction Hs as [|c s [d [Hd ->]] _ IH]; intro acc.
  - reflexivity.
  - cbn [read_digits app]; destruct (dchar_facts d [] Hd) as [-> _]; apply IH.
Qed.

Lemma dchar_mod (n : Z) : 0 <= n -> is_dchar (dchar (n mod 10)).
Proof. intro; exists (n mod 10); split; [apply Z.mod_pos_bound; lia | reflexivity]. Qed.

Lemma digits_rev_spec (f : nat) (n : Z) :
  0 <= n < 10 ^ (Z.of_nat f + 1) ->
  digits_rev f n <> [] /\ Forall is_dchar (digits_rev f n) /\
  read_digits 10 (rev (digits_rev f n)) None = Some n.
Proof.
  revert n; induction f as [|f IH]; intros n Hn.
  - assert (Hm : n mod 10 = n) by (apply Z.mod_small; simpl in Hn; lia).
    cbn [digits_rev rev app]; rewrite Hm.
    split; [discriminate | split].
    + constructor; [exists n; split; [simpl in Hn; lia | reflexivity] | constructor].
    + cbn [read_digits].
      destruct (dchar_facts n [] ltac:(simpl in Hn; lia)) as [-> _]; reflexivity.
  - cbn [digits_rev].
    destruct (n <? 10) eqn:E.
    + apply Z.ltb_lt in E; rewrite (Z.mod_small n 10) by lia.
      split; [discriminate | split].
      * constructor; [exists n; split; [lia | reflexivity] | constructor].
      * cbn [rev app read_digits].
        destruct (dchar_facts n [] ltac:(lia)) as [-> _]; reflexivity.
    + apply Z.ltb_ge in E.
      assert (Hq : 0 <= n / 10 < 10 ^ (Z.of_nat f + 1)).
      { split; [apply Z.div_pos; lia|].
        apply Z.div_lt_upper_bound; [lia|].
        replace (Z.of_nat (S f) + 1) with (Z.succ (Z.of_nat f + 1)) in Hn by lia.
        rewrite Z.pow_succ_r in Hn by lia; lia. }
      destruct (IH (n / 10) Hq) as [_ [Hall Hread]].
      split; [discriminate | split].
      * constructor; [apply dchar_mod; lia | exact Hall].
      * cbn [rev]; rewrite read_digits_app by (apply Forall_rev; exact Hall).
        rewrite Hread; cbn [read_digits].
        destruct (dchar_facts (n mod 10) [] ltac:(apply Z.mod_pos_bound; lia))
          as [-> _].
        f_equal; pose proof (Z.div_mod n 10); lia.
Qed.

Lemma log2_fuel (a : Z) :
  0 <= a -> 0 <= a < 10 ^ (Z.of_nat (Z.to_nat (Z.log2 a)) + 1).
Proof.
  intro Ha; split; [exact Ha|].
  rewrite Z2Nat.id by apply Z.log2_nonneg.
  apply Z.lt_le_trans with (2 ^ (Z.log2 a + 1)).
  - destruct (Z.eq_dec a 0) as [-> | Hne]; [reflexivity|].
    destruct (Z.log2_spec a ltac:(lia)) as [_ H]; rewrite <- Z.add_1_r in H; exact H.
  - apply Z.pow_le_mono_l; lia.
Qed.

(** [parseInt] reads back the decimal text of every integer. *)
Lemma parseInt_toString (n : Z) : parseInt (toString n) = Some n.
Proof.
  unfold toString.
  destruct (digits_rev_spec (Z.to_nat (Z.log2 (Z.abs n))) (Z.abs n)
              (log2_fuel (Z.abs n) (Z.abs_nonneg n))) as [Hne [Hall Hread]].
  assert (Hne' : rev (digits_rev (Z.to_nat (Z.log2 (Z.abs n))) (Z.abs n)) <> []).
  { intro E; apply Hne; apply (f_equal (@rev ascii)) in E.
    rewrite rev_involutive in E; exact E. }
  apply Forall_rev in Hall.
  set (ds := rev (digits_rev (Z.to_nat (Z.log2 (Z.abs n))) (Z.abs n))) in *.
  clearbody ds.
  destruct ds as [|c rest]; [contradiction|].
  inversion Hall as [|? ? Hc Hrest]; subst.
  assert (Hrad : take_radix (c :: rest) = (10, c :: rest))
    by (apply take_radix_digits; assumption).
  destruct Hc as [d [Hd ->]].
  destruct (dchar_facts d rest Hd) as [_ [Hsp Hsg]].
  unfold parseInt.
  destruct (n <? 0) eqn:En.
  - cbn [trim_start]; change (is_js_space "-"%char) with false; cbv iota.
    change (take_sign ("-"%char :: dchar d :: rest)) with (-1, dchar d :: rest).
    cbv beta iota; rewrite Hrad; cbv beta iota; rewrite Hread; cbn [option_map].
    f_equal; apply Z.ltb_lt in En; lia.
  - cbn [trim_start]; rewrite Hsp, Hsg; cbv beta iota.
    rewrite Hrad; cbv beta iota; rewrite Hread; cbn [option_map].
    f_equal; apply Z.ltb_ge in En; lia.
Qed.

(** ** Direct verse entry *)

(** C4 (as stated, refuted): the non-integer input ["3.7"] is not ignored:
    [parseInt] truncates it to [3] and [handleJumpToAyah] calls
    [loadAyah(1, 3)]. *)
Lemma jump_non_integer_truncated :
  parseInt (list_ascii_of_string "3.7") = Some 3 /\
  handleJumpToAyah (list_ascii_of_string "3.7") st_demo = Some (1, 3).
Proof. split; reflexivity. Qed.

(** C4 (amended): with current chapter [c], [handleJumpToAyah value] does
    nothing when [parseInt value] is [NaN] or outside
    [[1, c.numberOfAyahs]], and otherwise calls
    [loadAyah(c.number, parseInt value)].  In particular, on the decimal
    text of an integer [v] it does nothing when [v <= 0] or
    [v > c.numberOfAyahs], and otherwise acts as [loadAyah(c.number, v)]. *)
Theorem handleJumpToAyah_cases (st : State) (c : Surah)
    (Hc : currentSurah st = Some c) :
  (forall value, parseInt value = None -> handleJumpToAyah value st = None) /\
  (forall value n, parseInt value = Some n ->
     n <= 0 \/ numberOfAyahs c < n -> handleJumpToAyah value st = None) /\
  (forall value n, parseInt value = Some n -> 0 < n <= numberOfAyahs c ->
     handleJumpToAyah value st = Some (number c, n)) /\
  (forall v, v <= 0 \/ numberOfAyahs c < v ->
     handleJumpToAyah (toString v) st = None /\
     forall prov, run_nav prov st (handleJumpToAyah (toString v) st) = st) /\
  (forall v, 0 < v <= numberOfAyahs c ->
     forall prov, run_nav prov st (handleJumpToAyah (toString v) st) =
                  loadAyah prov st (number c) v).
Proof.
  assert (Hout : forall value n, parseInt value = Some n ->
            n <= 0 \/ numberOfAyahs c < n -> handleJumpToAyah value st = None).
  { intros value n Hp Hn; unfold handleJumpToAyah; rewrite Hc, Hp.
    destruct ((0 <? n) && (n <=? numberOfAyahs c)) eqn:E; [|reflexivity].
    apply andb_true_iff in E; rewrite Z.ltb_lt, Z.leb_le in E; lia. }
  assert (Hin : forall value n, parseInt value = Some n ->
            0 < n <= numberOfAyahs c ->
            handleJumpToAyah value st = Some (number c, n)).
  { intros value n Hp Hn; unfold handleJumpToAyah; rewrite Hc, Hp.
    replace ((0 <? n) && (n <=? numberOfAyahs c)) with true; [reflexivity|].
    symmetry; apply andb_true_iff; rewrite Z.ltb_lt, Z.leb_le; lia. }
  split; [|split; [exact Hout|split; [exact Hin|split]]].
  - intros value Hp; unfold handleJumpToAyah; rewrite Hc, Hp; reflexivity.
  - intros v Hv; rewrite (Hout _ v (parseInt_toString v) Hv).
    split; reflexivity.
  - intros v Hv prov; rewrite (Hin _ v (parseInt_toString v) Hv); reflexivity.
Qed.

(** ** Range of the fetched positions *)

(** C3 (as stated, refuted): [selectSearchResult] forwards its coordinate
    to [loadAyah] unchecked: it requests verse 999 of chapter 9, which has
    129 verses, and the request reaches [getAyah]. *)
Lemma selectSearchResult_unchecked :
  find (fun s => number s =? 9) (surahs st_demo) = Some surah9 /\
  numberOfAyahs surah9 = 129 /\
  snd (selectSearchResult 9 999 st_demo) = Some (9, 999) /\
  ~ (1 <= 999 <= numberOfAyahs surah9) /\
  (forall prov : Provider,
     run_handler prov st_demo (selectSearchResult 9 999 st_demo) =
     loadAyah_resolve (mkPending (surahs st_demo) (currentSurah st_demo) 9 999)
       (prov 9 999)
       (set_error None (set_isLoadingAyah true
          (set_isSidebarOpen false (set_viewMode reader st_demo))))).
Proof.
  split; [reflexivity | split; [reflexivity | split; [reflexivity | split]]].
  - cbn; lia.
  - intro prov; reflexivity.
Qed.

(** C3 (amended): when the current verse lies in [[1, c.numberOfAyahs]],
    [handleNextAyah] and [handlePrevAyah] request either a verse of the
    current chapter within that range or verse 1 of the neighbouring
    chapter; [handleJumpToAyah] only requests a verse of the current
    chapter within the range; [selectSurahFromList] requests verse 1 of the
    chosen chapter; [selectSearchResult] forwards its coordinate
    unchecked. *)
Theorem nav_targets_bounded (st : State) (c : Surah)
    (Hc : currentSurah st = Some c)
    (Hv : 1 <= currentAyahNum st <= numberOfAyahs c) :
  (forall s a, handleNextAyah st = Some (s, a) ->
     (s = number c /\ 1 <= a <= numberOfAyahs c) \/ (s = number c + 1 /\ a = 1)) /\
  (forall s a, handlePrevAyah st = Some (s, a) ->
     (s = number c /\ 1 <= a <= numberOfAyahs c) \/ (s = number c - 1 /\ a = 1)) /\
  (forall value s a, handleJumpToAyah value st = Some (s, a) ->
     s = number c /\ 1 <= a <= numberOfAyahs c) /\
  (forall surah, snd (selectSurahFromList surah st) = Some (number surah, 1)) /\
  (forall s a, snd (selectSearchResult s a st) = Some (s, a)).
Proof.
  split; [|split; [|split; [|split]]].
  - intros s a H; unfold handleNextAyah in H; rewrite Hc in H.
    destruct (currentAyahNum st <? numberOfAyahs c) eqn:E1.
    + injection H as <- <-; apply Z.ltb_lt in E1; left; lia.
    + destruct (number c <? 114); [injection H as <- <-; right; lia | discriminate].
  - intros s a H; unfold handlePrevAyah in H; rewrite Hc in H.
    destruct (1 <? currentAyahNum st) eqn:E1.
    + injection H as <- <-; apply Z.ltb_lt in E1; left; lia.
    + destruct (1 <? number c); [injection H as <- <-; right; lia | discriminate].
  - intros value s a H; unfold handleJumpToAyah in H; rewrite Hc in H.
    destruct (parseInt value) as [n|]; [|discriminate].
    destruct ((0 <? n) && (n <=? numberOfAyahs c)) eqn:E; [|discriminate].
    injection H as <- <-; apply andb_true_iff in E.
    rewrite Z.ltb_lt, Z.leb_le in E; lia.
  - reflexivity.
  - reflexivity.
Qed.

(** ** Chapter filter *)










(** ** Examples *)

Definition surah_n (n : Z) : Surah := mkSurah n [] [] [] 1.

Example filter_query_2 :
  map number (filteredSurahs (map surah_n [1; 2; 3; 12; 13; 20; 29; 32; 114])
                             (list_ascii_of_string "2")) = [2; 12; 20; 29; 32].
Proof. vm_compute; reflexivity. Qed.

Example filter_query_ci :
  filteredSurahs [surah1; surah9] (list_ascii_of_string "TAWBA") = [surah9].
Proof. vm_compute; reflexivity. Qed.

(** ** Witnesses *)

Lemma handleNextAyah_cases_witness :
  currentSurah st_end1 = Some surah1 /\
  handleNextAyah st_end1 = Some (2, 1) /\
  currentSurah st_end114 = Some surah114 /\
  handleNextAyah st_end114 = None.
Proof.
  split; [reflexivity | split; [|split; [reflexivity|]]].
  - apply (proj1 (proj2 (handleNextAyah_cases st_end1 surah1 eq_refl)));
      reflexivity.
  - apply (proj2 (proj2 (handleNextAyah_cases st_end114 surah114 eq_refl)));
      reflexivity.
Defined.

Lemma handlePrevAyah_cases_witness :
  currentSurah st_demo = Some surah1 /\ handlePrevAyah st_demo = None.
Proof.
  split; [reflexivity|].
  apply (proj2 (proj2 (handlePrevAyah_cases st_demo surah1 eq_refl)));
    reflexivity.
Defined.

Lemma nav_without_chapter_noop_witness :
  currentSurah st_empty = None /\ handleNextAyah st_empty = None.
Proof.
  split; [reflexivity|].
  apply (proj1 (nav_without_chapter_noop st_empty eq_refl)).
Defined.

Lemma loadAyah_rejected_witness :
  prov_down 9 999 = None /\
  error (loadAyah prov_down st_demo 9 999) = Some loadAyah_error_msg.
Proof.
  split; [reflexivity|].
  apply (proj1 (loadAyah_rejected prov_down st_demo 9 999 eq_refl)).
Defined.

Lemma gesture_horizontal_swipe_witness :
  ~ (200 == 0)%Q /\ ~ (100 == 0)%Q /\ (50 < Qabs (100 - 200))%Q /\
  (Qabs (0 - 0) < Qabs (100 - 200))%Q /\
  gesture r0 200 0 100 0 = Some NextAyah.
Proof.
  assert (H1 : ~ (200 == 0)%Q) by (intro H; vm_compute in H; discriminate H).
  assert (H2 : ~ (100 == 0)%Q) by (intro H; vm_compute in H; discriminate H).
  split; [exact H1 | split; [exact H2 | split; [reflexivity | split; [reflexivity|]]]].
  apply (proj1 (gesture_horizontal_swipe r0 200 0 100 0 H1 H2 eq_refl eq_refl));
    reflexivity.
Defined.

Lemma gesture_no_navigation_witness :
  (Qabs (160 - 100) <= 50 \/ Qabs (160 - 100) <= Qabs (70 - 0))%Q /\
  gesture r0 100 0 160 70 = None.
Proof.
  assert (H : (Qabs (160 - 100) <= 50 \/ Qabs (160 - 100) <= Qabs (70 - 0))%Q)
    by (right; vm_compute; discriminate).
  split; [exact H|].
  apply (proj1 (gesture_no_navigation r0 100 0 160 70 H)).
Defined.

Lemma gesture_zero_abscissa_ignored_witness :
  ((0 == 0)%Q \/ (100 == 0)%Q) /\ gesture r0 0 0 100 0 = None.
Proof.
  assert (H : (0 == 0)%Q \/ (100 == 0)%Q) by (left; reflexivity).
  split; [exact H|].
  apply (proj1 (gesture_zero_abscissa_ignored r0 0 0 100 0 H)).
Defined.

Lemma handleJumpToAyah_cases_witness :
  currentSurah st_demo = Some surah1 /\
  handleJumpToAyah (toString 5) st_demo = Some (1, 5).
Proof.
  split; [reflexivity|].
  apply (proj1 (proj2 (proj2 (handleJumpToAyah_cases st_demo surah1 eq_refl)))
           (toString 5) 5 (parseInt_toString 5)).
  cbn; lia.
Defined.

Lemma nav_targets_bounded_witness :
  currentSurah st_demo = Some surah1 /\
  (1 <= currentAyahNum st_demo <= numberOfAyahs surah1) /\
  (forall s a, handleNextAyah st_demo = Some (s, a) ->
     (s = 1 /\ 1 <= a <= 7) \/ (s = 2 /\ a = 1)).
Proof.
  assert (Hv : 1 <= currentAyahNum st_demo <= numberOfAyahs surah1)
    by (cbn; lia).
  split; [reflexivity | split; [exact Hv|]].
  exact (proj1 (nav_targets_bounded st_demo surah1 eq_refl Hv)).
Defined.

(** * Further properties of [App] *)

(** ** [loadAyah] and the navigation steps *)

(** X1: [loadAyah], hence every navigation handler run against a
    provider, never changes the chapter list, the view mode or the
    sidebar. *)
Theorem run_nav_preserves (prov : Provider) (st : State) (cmd : option (Z * Z)) :
  surahs (run_nav prov st cmd) = surahs st /\
  viewMode (run_nav prov st cmd) = viewMode st /\
  isSidebarOpen (run_nav prov st cmd) = isSidebarOpen st.
Proof.
  destruct cmd as [[s a]|]; [|repeat split].
  unfold run_nav, loadAyah, loadAyah_start, loadAyah_resolve; cbn.
  destruct (prov s a); [|repeat split].
  destruct (match currentSurah st with
            | Some cs => negb (number cs =? s) | None => true end);
    [destruct (find _ _)|]; repeat split.
Qed.

(** X2: when [getAyah(s, a)] succeeds, [loadAyah] shows the fetched verse
    at verse index [a], clears the error and the loading flag; the current
    chapter stays when it already has number [s], becomes a chapter of the
    list numbered [s] when it had another number (or none) and the list has
    one, and stays as it was when the list has none. *)
Theorem loadAyah_success (prov : Provider) (st : State) (s a : Z)
    (d : AyahDisplayData) (Hok : prov s a = Some d) :
  let st2 := loadAyah prov st s a in
  ayahData st2 = Some d /\ currentAyahNum st2 = a /\
  error st2 = None /\ isLoadingAyah st2 = false /\
  (forall cs, currentSurah st = Some cs -> number cs = s ->
     currentSurah st2 = Some cs) /\
  ((forall cs, currentSurah st = Some cs -> number cs <> s) ->
     (exists f, In f (surahs st) /\ number f = s) ->
     exists f, currentSurah st2 = Some f /\ In f (surahs st) /\ number f = s) /\
  ((forall f, In f (surahs st) -> number f <> s) ->
     currentSurah st2 = currentSurah st).
Proof.
  unfold loadAyah, loadAyah_start, loadAyah_resolve; rewrite Hok; cbn.
  destruct (currentSurah st) as [cs0|] eqn:Hcs0;
    [destruct (number cs0 =? s) eqn:Heq|]; cbn [negb];
    destruct (find (fun x => number x =? s) (surahs st)) as [f|] eqn:Hf; cbn;
    do 4 (split; [reflexivity|]);
    try (destruct (find_some _ _ Hf) as [Hin Hn]; apply Z.eqb_eq in Hn);
    try (rewrite Z.eqb_eq in Heq); try (rewrite Z.eqb_neq in Heq);
    refine (conj _ (conj _ _)).
  all: try (intros cs Hc Hcs; injection Hc as <-; first [reflexivity | contradiction]).
  all: try (intros cs Hc; discriminate Hc).
  all: try (intros Hne; exfalso; exact (Hne cs0 eq_refl Heq)).
  all: try (intros _ _; exists f; repeat split; assumption).
  all: try (intros Hnone; exfalso; exact (Hnone f Hin Hn)).
  all: try (intros _; reflexivity).
  all: try (intros cs Hc _; injection Hc as <-; exact Hcs0).
  all: try (intros _; exact Hcs0).
  all: try (intros _ [g [Hin Hn]];
            apply (find_none _ _ Hf) in Hin; apply Z.eqb_neq in Hin; contradiction).
Qed.

Lemma advance_step_within (prov : Provider) (st : State) (c : Surah)
    (Hprov : forall s a, prov s a <> None)
    (Hc : currentSurah st = Some c)
    (Hv : currentAyahNum st < numberOfAyahs c) :
  currentSurah (advance_step prov st) = Some c /\
  currentAyahNum (advance_step prov st) = currentAyahNum st + 1 /\
  ayahData (advance_step prov st) = prov (number c) (currentAyahNum st + 1).
Proof.
  unfold advance_step.
  rewrite (proj1 (handleNextAyah_cases st c Hc) Hv), run_nav_some.
  destruct (prov (number c) (currentAyahNum st + 1)) as [d|] eqn:Hd;
    [|exfalso; exact (Hprov _ _ Hd)].
  destruct (loadAyah_success prov st _ _ d Hd) as [Ha [Hn [_ [_ [Hs _]]]]].
  split; [apply Hs; [exact Hc | reflexivity]|split; assumption].
Qed.

Lemma advance_iterate_within (prov : Provider) (c : Surah)
    (Hprov : forall s a, prov s a <> None) (k : nat) :
  forall st, currentSurah st = Some c ->
  currentAyahNum st + Z.of_nat k <= numberOfAyahs c ->
  currentSurah (iterate (advance_step prov) k st) = Some c /\
  currentAyahNum (iterate (advance_step prov) k st) = currentAyahNum st + Z.of_nat k /\
  surahs (iterate (advance_step prov) k st) = surahs st.
Proof.
  induction k as [|k IH]; intros st Hc Hk.
  - cbn; rewrite Z.add_0_r; repeat split; assumption.
  - cbn [iterate].
    destruct (advance_step_within prov st c Hprov Hc ltac:(lia)) as [Hc' [Hv' _]].
    destruct (IH (advance_step prov st) Hc' ltac:(lia)) as [H1 [H2 H3]].
    split; [exact H1 | split; [lia|]].
    rewrite H3; apply run_nav_preserves.
Qed.

(** X3: with a provider that answers every request, repeated advancing from
    verse 1 of chapter [c] goes through the verses of [c] in order: after
    [k] steps the position is [(c, 1 + k)] as long as [1 + k] does not
    exceed the verse count; after [c.numberOfAyahs] steps, when [c.number <
    114] and the list has a chapter numbered [c.number + 1], the position
    is verse 1 of such a chapter. *)
Theorem advance_through_chapter (prov : Provider) (st : State) (c : Surah)
    (Hprov : forall s a, prov s a <> None)
    (Hc : currentSurah st = Some c) (H1 : currentAyahNum st = 1) :
  (forall k : nat, 1 + Z.of_nat k <= numberOfAyahs c ->
     currentSurah (iterate (advance_step prov) k st) = Some c /\
     currentAyahNum (iterate (advance_step prov) k st) = 1 + Z.of_nat k) /\
  (1 <= numberOfAyahs c -> number c < 114 ->
   (exists f, In f (surahs st) /\ number f = number c + 1) ->
   let st' := iterate (advance_step prov) (Z.to_nat (numberOfAyahs c)) st in
   exists f, currentSurah st' = Some f /\ In f (surahs st) /\
             number f = number c + 1 /\ currentAyahNum st' = 1).
Proof.
  split.
  - intros k Hk.
    destruct (advance_iterate_within prov c Hprov k st Hc ltac:(lia)) as [A [B _]].
    split; [exact A | lia].
  - intros Hn Hlt Hex st'.
    assert (Hsplit : Z.to_nat (numberOfAyahs c) =
                     (Z.to_nat (numberOfAyahs c - 1) + 1)%nat) by lia.
    subst st'; rewrite Hsplit.
    set (k := Z.to_nat (numberOfAyahs c - 1)).
    destruct (advance_iterate_within prov c Hprov k st Hc ltac:(lia))
      as [A [B C]].
    set (stk := iterate (advance_step prov) k st) in *.
    assert (Hit : forall (x : State) (j : nat),
              iterate (advance_step prov) (j + 1) x =
              advance_step prov (iterate (advance_step prov) j x)).
    { intros x j; revert x; induction j as [|j IHj]; intro x; [reflexivity|].
      cbn [iterate Nat.add]; apply IHj. }
    rewrite Hit; fold stk.
    assert (Hlast : currentAyahNum stk = numberOfAyahs c) by lia.
    unfold advance_step.
    rewrite (proj1 (proj2 (handleNextAyah_cases stk c A)) Hlast Hlt), run_nav_some.
    destruct (prov (number c + 1) 1) as [d|] eqn:Hd;
      [|exfalso; exact (Hprov _ _ Hd)].
    destruct (loadAyah_success prov stk _ _ d Hd) as [_ [Hv [_ [_ [_ [Hmove _]]]]]].
    rewrite C in Hmove.
    destruct Hmove as [f [Hf [Hin Hnum]]].
    + intros cs Hcs; rewrite A in Hcs; injection Hcs as <-; lia.
    + exact Hex.
    + exists f; repeat split; assumption.
Qed.

(** X4: with a provider that answers every request, advancing from verse
    [v] of chapter [c] with [1 <= v < c.numberOfAyahs] and then retreating
    comes back to [(c, v)] and shows the record of [(c.number, v)]. *)
Theorem advance_then_retreat (prov : Provider) (st : State) (c : Surah)
    (Hprov : forall s a, prov s a <> None)
    (Hc : currentSurah st = Some c)
    (Hv : 1 <= currentAyahNum st < numberOfAyahs c) :
  let st2 := retreat_step prov (advance_step prov st) in
  currentSurah st2 = Some c /\ currentAyahNum st2 = currentAyahNum st /\
  ayahData st2 = prov (number c) (currentAyahNum st).
Proof.
  destruct (advance_step_within prov st c Hprov Hc ltac:(lia)) as [A [B _]].
  set (st1 := advance_step prov st) in *.
  unfold retreat_step.
  rewrite (proj1 (handlePrevAyah_cases st1 c A) ltac:(lia)), run_nav_some, B.
  replace (currentAyahNum st + 1 - 1) with (currentAyahNum st) by lia.
  destruct (prov (number c) (currentAyahNum st)) as [d|] eqn:Hd;
    [|exfalso; exact (Hprov _ _ Hd)].
  destruct (loadAyah_success prov st1 _ _ d Hd) as [Ha [Hn [_ [_ [Hs _]]]]].
  split; [apply Hs; [exact A | reflexivity] | split; assumption].
Qed.

Lemma resolve_some_fields (p : Pending) (d : AyahDisplayData) (st : State) :
  let st2 := loadAyah_resolve p (Some d) st in
  ayahData st2 = Some d /\ currentAyahNum st2 = p_ayahNum p /\
  isLoadingAyah st2 = false /\ error st2 = error st /\
  surahs st2 = surahs st /\ viewMode st2 = viewMode st /\
  isSidebarOpen st2 = isSidebarOpen st.
Proof.
  unfold loadAyah_resolve; cbv zeta.
  destruct (match p_currentSurah p with
            | Some cs => negb (number cs =? p_surahNum p) | None => true end);
    [destruct (find _ _)|]; repeat split.
Qed.

Lemma resolve_none_fields (p : Pending) (st : State) :
  let st2 := loadAyah_resolve p None st in
  ayahData st2 = ayahData st /\ currentSurah st2 = currentSurah st /\
  currentAyahNum st2 = currentAyahNum st /\
  isLoadingAyah st2 = false /\ error st2 = Some loadAyah_error_msg /\
  surahs st2 = surahs st /\ viewMode st2 = viewMode st /\
  isSidebarOpen st2 = isSidebarOpen st.
Proof. repeat split. Qed.

(** X5: two verse requests in flight, the later-issued one settling first:
    its settlement already clears the loading flag while the other is
    pending, and the record shown at the end is the one that settled last
    (last write wins); if the earlier request fails instead, its
    settlement only sets the error slot: the later record, verse number
    and chapter stay on screen. *)
Theorem loadAyah_last_write_wins (st : State) (sA aA sB aB : Z)
    (dA dB : AyahDisplayData) :
  let '(st1, pA) := loadAyah_start st sA aA in
  let '(st2, pB) := loadAyah_start st1 sB aB in
  let st3 := loadAyah_resolve pB (Some dB) st2 in
  isLoadingAyah st2 = true /\
  isLoadingAyah st3 = false /\ ayahData st3 = Some dB /\
  ayahData (loadAyah_resolve pA (Some dA) st3) = Some dA /\
  currentAyahNum (loadAyah_resolve pA (Some dA) st3) = aA /\
  ayahData (loadAyah_resolve pA None st3) = Some dB /\
  error (loadAyah_resolve pA None st3) = Some loadAyah_error_msg /\
  currentAyahNum (loadAyah_resolve pA None st3) = aB /\
  currentSurah (loadAyah_resolve pA None st3) = currentSurah st3 /\
  loadAyah_resolve pA None st3 = set_error (Some loadAyah_error_msg) st3.
Proof.
  cbn [loadAyah_start].
  set (st2 := set_error None (set_isLoadingAyah true
                (set_error None (set_isLoadingAyah true st)))).
  set (pA := mkPending (surahs st) (currentSurah st) sA aA).
  set (pB := mkPending (surahs (set_error None (set_isLoadingAyah true st)))
               (currentSurah (set_error None (set_isLoadingAyah true st))) sB aB).
  destruct (resolve_some_fields pB dB st2) as [H3a [H3n [H3l _]]].
  set (st3 := loadAyah_resolve pB (Some dB) st2) in *.
  destruct (resolve_some_fields pA dA st3) as [H4a [H4n _]].
  destruct (resolve_none_fields pA st3) as [H5a [_ [H5n [_ [H5e _]]]]].
  split; [reflexivity|].
  repeat split; try assumption; try reflexivity.
  all: try (rewrite H5a; exact H3a).
  all: try (rewrite H5n; exact H3n).
Qed.

(** X6: selecting a search result switches to the reader and closes the
    sidebar whatever the fetch gives, and ends with the loading flag
    false; on success it shows the fetched record at the requested verse
    and clears the error, on failure it keeps the previous record and
    position and sets the error. *)
Theorem selectSearchResult_effects (prov : Provider) (st : State) (s a : Z) :
  let st2 := run_handler prov st (selectSearchResult s a st) in
  viewMode st2 = reader /\ isSidebarOpen st2 = false /\
  isLoadingAyah st2 = false /\
  (forall d, prov s a = Some d ->
     ayahData st2 = Some d /\ currentAyahNum st2 = a /\ error st2 = None) /\
  (prov s a = None ->
     ayahData st2 = ayahData st /\ currentSurah st2 = currentSurah st /\
     currentAyahNum st2 = currentAyahNum st /\
     error st2 = Some loadAyah_error_msg).
Proof.
  cbv zeta; unfold run_handler, selectSearchResult; cbv beta iota.
  set (p := mkPending (surahs st) (currentSurah st) s a).
  set (st1 := set_error None (set_isLoadingAyah true
                (set_isSidebarOpen false (set_viewMode reader st)))).
  destruct (prov s a) as [d|] eqn:Hp.
  - destruct (resolve_some_fields p d st1) as [Ha [Hn [Hl [He [_ [Hm Hsb]]]]]].
    rewrite Ha, Hn, Hl, He, Hm, Hsb.
    repeat split; intros; try discriminate.
    all: match goal with H : Some _ = Some _ |- _ => injection H as -> end; reflexivity.
  - destruct (resolve_none_fields p st1) as [Ha [Hc [Hn [Hl [He [_ [Hm Hsb]]]]]]].
    rewrite Ha, Hc, Hn, Hl, He, Hm, Hsb.
    repeat split; intros; discriminate.
Qed.

(** X7: when the fetch of verse 1 fails after a chapter is picked from the
    list, the picked chapter becomes current but the verse index keeps its
    old value (the previous record stays shown); retreating then requests
    verse [old - 1] of the picked chapter, whatever its verse count. *)
Theorem selectSurahFromList_failed (prov : Provider) (st : State) (surah : Surah)
    (Hfail : prov (number surah) 1 = None) :
  let st2 := run_handler prov st (selectSurahFromList surah st) in
  currentSurah st2 = Some surah /\ currentAyahNum st2 = currentAyahNum st /\
  ayahData st2 = ayahData st /\ viewMode st2 = reader /\
  error st2 = Some loadAyah_error_msg /\
  (1 < currentAyahNum st ->
     handlePrevAyah st2 = Some (number surah, currentAyahNum st - 1)).
Proof.
  cbv zeta; unfold run_handler, selectSurahFromList; cbv beta iota.
  rewrite Hfail.
  set (st2 := loadAyah_resolve _ None _).
  assert (Hc : currentSurah st2 = Some surah) by reflexivity.
  assert (Hn : currentAyahNum st2 = currentAyahNum st) by reflexivity.
  repeat split; try assumption.
  intro Hv; apply (proj1 (handlePrevAyah_cases st2 surah Hc)); lia.
Qed.

(** X8: when the fetch of verse 1 succeeds after a chapter is picked from
    the list, the reader shows verse 1 of a chapter with the picked
    chapter's number (the picked one, or the list's entry with that
    number), with the fetched record and no error. *)
Theorem selectSurahFromList_success (prov : Provider) (st : State) (surah : Surah)
    (d : AyahDisplayData) (Hok : prov (number surah) 1 = Some d) :
  let st2 := run_handler prov st (selectSurahFromList surah st) in
  (exists cs, currentSurah st2 = Some cs /\ number cs = number surah) /\
  currentAyahNum st2 = 1 /\ ayahData st2 = Some d /\
  viewMode st2 = reader /\ error st2 = None /\ isLoadingAyah st2 = false.
Proof.
  cbv zeta; unfold run_handler, selectSurahFromList; cbv beta iota.
  rewrite Hok.
  set (p := mkPending (surahs st) (currentSurah st) (number surah) 1).
  set (st1 := set_error None (set_isLoadingAyah true
                (set_isSidebarOpen false
                   (set_currentSurah (Some surah) (set_viewMode reader st))))).
  destruct (resolve_some_fields p d st1) as [Ha [Hn [Hl [He [_ [Hm _]]]]]].
  split; [|repeat split; assumption].
  unfold loadAyah_resolve; cbv zeta; cbn [p_currentSurah p_surahNum p_surahs p].
  destruct (match currentSurah st with
            | Some cs => negb (number cs =? number surah) | None => true end).
  - destruct (find (fun s => number s =? number surah) (surahs st)) as [f|] eqn:Hf.
    + destruct (find_some _ _ Hf) as [_ Hnum]; apply Z.eqb_eq in Hnum.
      exists f; split; [reflexivity | exact Hnum].
    + exists surah; split; reflexivity.
  - exists surah; split; reflexivity.
Qed.

(** X9: when the chapter list is empty (its initial load failed) and no
    chapter is current, selecting a search result never sets a current
    chapter, even when the verse fetch succeeds, so [handleNextAyah] and
    [handlePrevAyah] stay no-ops afterwards. *)
Theorem empty_list_search_result_no_chapter (prov : Provider) (st : State) (s a : Z)
    (Hl : surahs st = []) (Hc : currentSurah st = None) :
  let st2 := run_handler prov st (selectSearchResult s a st) in
  currentSurah st2 = None /\ handleNextAyah st2 = None /\
  handlePrevAyah st2 = None.
Proof.
  cbv zeta.
  assert (H : currentSurah (run_handler prov st (selectSearchResult s a st)) = None).
  { unfold run_handler, selectSearchResult; cbv beta iota.
    destruct (prov s a) as [d|]; [|exact Hc].
    unfold loadAyah_resolve; cbv zeta; cbn [p_currentSurah p_surahs p_surahNum].
    rewrite Hc, Hl; exact Hc. }
  split; [exact H|].
  unfold handleNextAyah, handlePrevAyah; rewrite H; split; reflexivity.
Qed.

(** ** Touch sequences *)

Lemma onTouchMoves_start (ms : list (Q * Q)) :
  forall r, touchStartX (onTouchMoves ms r) = touchStartX r /\
            touchStartY (onTouchMoves ms r) = touchStartY r.
Proof.
  induction ms as [|m ms IH]; intro r; [split; reflexivity|].
  exact (IH (onTouchMove (fst m) (snd m) r)).
Qed.

(** X10: a touch start clears the end refs, so a tap (start then end, no
    move) never navigates, whatever a previous gesture left in the refs;
    after any number of moves only the start point and the last move
    point decide the gesture. *)
Theorem touch_sequence (r : TouchRefs) (sx sy : Q) :
  onTouchEnd (onTouchMoves [] (onTouchStart sx sy r)) = None /\
  forall (ms : list (Q * Q)) (ex ey : Q),
    onTouchEnd (onTouchMoves (ms ++ [(ex, ey)]) (onTouchStart sx sy r)) =
    gesture r0 sx sy ex ey.
Proof.
  split.
  - unfold onTouchEnd, onTouchMoves, onTouchStart; cbn [fold_left touchStartX touchEndX falsy].
    rewrite orb_true_r; reflexivity.
  - intros ms ex ey; unfold onTouchMoves; rewrite fold_left_app; cbn [fold_left fst snd].
    fold (onTouchMoves ms (onTouchStart sx sy r)).
    destruct (onTouchMoves_start ms (onTouchStart sx sy r)) as [Hx Hy].
    unfold gesture, onTouchMove at 1 2; rewrite Hx, Hy; reflexivity.
Qed.

(** ** Search, commentary and overview *)






(** X12: [handleViewTafsir] does nothing when no verse is shown;
    otherwise the commentary slot ends with the generator's answer for the
    shown verse and the handler's language, the modal stays open exactly
    when generation succeeds, the loading flag ends false, a failure sets
    the error, and the shown verse is untouched. *)
Theorem handleViewTafsir_outcomes (prov : TafsirProvider) (a : AppState) :
  (ayahData (nav a) = None -> handleViewTafsir prov a = a) /\
  (forall d, ayahData (nav a) = Some d ->
     let a2 := handleViewTafsir prov a in
     tafsirData a2 = prov d (language a) /\
     isTafsirOpen a2 = match prov d (language a) with Some _ => true | None => false end /\
     isLoadingTafsir a2 = false /\ ayahData (nav a2) = Some d /\
     (prov d (language a) = None -> error (nav a2) = Some tafsir_error_msg)).
Proof.
  unfold handleViewTafsir, handleViewTafsir_start.
  split; [intro H; rewrite H; reflexivity|].
  intros d H; rewrite H; cbv zeta; unfold handleViewTafsir_resolve.
  destruct (prov d (language a)); repeat split; try discriminate; exact H.
Qed.

(** X13: [handleSurahOverview] does nothing when no chapter is current;
    otherwise it asks the generator for the current chapter's
    transliterated name, number and the handler's language, the overview
    slot ends with the answer, the modal stays open exactly when generation
    succeeds, the loading flag ends false and a failure sets the error. *)
Theorem handleSurahOverview_outcomes (prov : OverviewProvider) (a : AppState) :
  (currentSurah (nav a) = None -> handleSurahOverview prov a = a) /\
  (forall cs, currentSurah (nav a) = Some cs ->
     let ans := prov (englishName cs) (number cs) (language a) in
     let a2 := handleSurahOverview prov a in
     overviewData a2 = ans /\
     isOverviewOpen a2 = match ans with Some _ => true | None => false end /\
     isLoadingOverview a2 = false /\
     (ans = None -> error (nav a2) = Some overview_error_msg)).
Proof.
  unfold handleSurahOverview, handleSurahOverview_start.
  split; [intro H; rewrite H; reflexivity|].
  intros cs H; rewrite H; cbv zeta; unfold handleSurahOverview_resolve.
  destruct (prov (englishName cs) (number cs) (language a));
    repeat split; discriminate.
Qed.

(** ** Preferences in [localStorage] *)

Lemma getItem_setItem_same (k : string) (v : jsstr) (s : Storage) :
  getItem k (setItem k v s) = Some v.
Proof.
  unfold setItem, getItem, hasKey.
  destruct (existsb (fun kv => String.eqb (fst kv) k) s) eqn:E.
  - induction s as [|[k0 v0] s IH]; [discriminate|].
    cbn [map find existsb fst] in *.
    destruct (String.eqb k0 k) eqn:Ek; cbn [find fst].
    + rewrite String.eqb_refl; reflexivity.
    + rewrite Ek; cbn [orb] in E; exact (IH E).
  - induction s as [|[k0 v0] s IH]; cbn [app find fst].
    + rewrite String.eqb_refl; reflexivity.
    + cbn [existsb fst] in E; apply orb_false_iff in E as [E1 E2].
      rewrite E1; exact (IH E2).
Qed.

Lemma getItem_setItem_other (k k' : string) (v : jsstr) (s : Storage) :
  k' <> k -> getItem k (setItem k' v s) = getItem k s.
Proof.
  intro Hne; apply String.eqb_neq in Hne.
  unfold setItem, getItem, hasKey.
  destruct (existsb (fun kv => String.eqb (fst kv) k') s).
  - induction s as [|[k0 v0] s IH]; [reflexivity|].
    cbn [map find fst].
    destruct (String.eqb k0 k') eqn:Ek; cbn [find fst].
    + apply String.eqb_eq in Ek; subst k0; rewrite Hne; exact IH.
    + destruct (String.eqb k0 k); [reflexivity | exact IH].
  - induction s as [|[k0 v0] s IH]; cbn [app find fst].
    + rewrite Hne; reflexivity.
    + destruct (String.eqb k0 k); [reflexivity | exact IH].
Qed.

Lemma hasKey_setItem (k : string) (v : jsstr) (s : Storage) :
  hasKey k (setItem k v s) = true.
Proof.
  unfold setItem, hasKey.
  destruct (existsb (fun kv => String.eqb (fst kv) k) s) eqn:E.
  - apply existsb_exists in E as [[k0 v0] [Hin Hk]].
    apply existsb_exists; exists (k, v); split; [|apply String.eqb_refl].
    apply in_map_iff; exists (k0, v0); cbn [fst] in *; rewrite Hk; auto.
  - rewrite existsb_app; cbn [existsb fst]; rewrite String.eqb_refl, orb_true_r.
    reflexivity.
Qed.

Lemma getItem_hasKey_false (k : string) (s : Storage) :
  hasKey k s = false -> getItem k s = None.
Proof.
  unfold hasKey, getItem; induction s as [|[k0 v0] s IH]; [reflexivity|].
  cbn [existsb find fst]; intro E; apply orb_false_iff in E as [E1 E2].
  rewrite E1; exact (IH E2).
Qed.

Lemma toString_nonempty (n : Z) : toString n <> [].
Proof.
  unfold toString; cbv zeta.
  destruct (n <? 0); [discriminate|].
  destruct (digits_rev_spec (Z.to_nat (Z.log2 (Z.abs n))) (Z.abs n)
              (log2_fuel (Z.abs n) (Z.abs_nonneg n))) as [Hne _].
  intro E; apply Hne; apply (f_equal (@rev ascii)) in E.
  rewrite rev_involutive in E; exact E.
Qed.

(** X14: the theme the dark-mode effect writes is the theme read back on
    the next start, whatever the system preference and whatever else is
    stored; with no stored theme the system preference decides. *)
Theorem theme_round_trip (s : Storage) (prefersDark : bool) :
  (forall d, darkMode_init (persist_theme d s) prefersDark = d) /\
  (hasKey "theme" s = false -> darkMode_init s prefersDark = prefersDark).
Proof.
  split.
  - intro d; unfold darkMode_init, persist_theme.
    rewrite getItem_setItem_same, hasKey_setItem; cbn [negb andb].
    rewrite orb_false_r; destruct d; reflexivity.
  - intro H; unfold darkMode_init; rewrite getItem_hasKey_false by exact H.
    rewrite H; reflexivity.
Qed.

(** X15: the font sizes the font effect writes are the sizes read back on
    the next start, [NaN] included (integers written in plain decimal); a
    missing or empty entry reads as the default 36 (Arabic) or 18
    (translation). *)
Theorem font_sizes_round_trip (s : Storage) :
  (forall arabic translation,
     plain_decimal arabic = true -> plain_decimal translation = true ->
     arabicFontSize_init (persist_fonts arabic translation s) = arabic /\
     translationFontSize_init (persist_fonts arabic translation s) = translation) /\
  ((getItem "arabicFontSize" s = None \/ getItem "arabicFontSize" s = Some []) ->
     arabicFontSize_init s = Some 36) /\
  ((getItem "translationFontSize" s = None \/ getItem "translationFontSize" s = Some []) ->
     translationFontSize_init s = Some 18).
Proof.
  assert (Hrt : forall n : option Z,
             parseInt (or_default (Some (number_toString n)) []) = n /\
             number_toString n <> []).
  { intros [z|]; cbn [number_toString].
    - split; [|apply toString_nonempty].
      destruct (toString z) eqn:E; [exfalso; exact (toString_nonempty z E)|].
      cbn [or_default]; rewrite <- E; apply parseInt_toString.
    - split; [reflexivity | discriminate]. }
  assert (Hdef : forall v dflt,
             or_default (Some v) [] <> [] ->
             or_default (Some v) dflt = or_default (Some v) []).
  { intros [|c v] dflt H; [contradiction | reflexivity]. }
  split; [|split].
  - intros arabic translation _ _; unfold persist_fonts; split.
    + unfold arabicFontSize_init.
      rewrite getItem_setItem_other by discriminate.
      rewrite getItem_setItem_same.
      destruct (Hrt arabic) as [H1 H2].
      rewrite Hdef; [exact H1|].
      destruct (number_toString arabic); [contradiction | discriminate].
    + unfold translationFontSize_init; rewrite getItem_setItem_same.
      destruct (Hrt translation) as [H1 H2].
      rewrite Hdef; [exact H1|].
      destruct (number_toString translation); [contradiction | discriminate].
  - unfold arabicFontSize_init; intros [H | H]; rewrite H; reflexivity.
  - unfold translationFontSize_init; intros [H | H]; rewrite H; reflexivity.
Qed.

(** ** Witnesses of the further properties *)

Lemma loadAyah_success_witness :
  prov_echo 9 5 = Some (mkAyah 9 5 [] [] [] []) /\
  ayahData (loadAyah prov_echo st_demo 9 5) = Some (mkAyah 9 5 [] [] [] []) /\
  currentAyahNum (loadAyah prov_echo st_demo 9 5) = 5.
Proof.
  split; [reflexivity|].
  pose proof (loadAyah_success prov_echo st_demo 9 5 _ eq_refl) as H.
  cbv zeta in H; split; [exact (proj1 H) | exact (proj1 (proj2 H))].
Defined.

Lemma advance_through_chapter_witness :
  (forall s a, prov_echo s a <> None) /\
  currentSurah st_start1 = Some surah1 /\ currentAyahNum st_start1 = 1 /\
  currentAyahNum (iterate (advance_step prov_echo) 3 st_start1) = 4 /\
  exists f, currentSurah (iterate (advance_step prov_echo) 7 st_start1) = Some f /\
            number f = 2 /\
            currentAyahNum (iterate (advance_step prov_echo) 7 st_start1) = 1.
Proof.
  assert (Hp : forall s a, prov_echo s a <> None) by (intros s a; discriminate).
  pose proof (advance_through_chapter prov_echo st_start1 surah1 Hp eq_refl eq_refl)
    as [H1 H2].
  split; [exact Hp | split; [reflexivity | split; [reflexivity|]]].
  split; [exact (proj2 (H1 3%nat ltac:(cbn; lia)))|].
  assert (Hex : exists f, In f (surahs st_start1) /\ number f = number surah1 + 1)
    by (exists surah2; split; [right; left; reflexivity | reflexivity]).
  destruct (H2 ltac:(cbn; lia) ltac:(cbn; lia) Hex) as [f [Hf [_ [Hn Ha]]]].
  exists f; split; [exact Hf | split; [exact Hn | exact Ha]].
Defined.

Lemma advance_then_retreat_witness :
  (forall s a, prov_echo s a <> None) /\
  currentSurah st_demo = Some surah1 /\
  1 <= currentAyahNum st_demo < numberOfAyahs surah1 /\
  currentAyahNum (retreat_step prov_echo (advance_step prov_echo st_demo)) = 1.
Proof.
  assert (Hp : forall s a, prov_echo s a <> None) by (intros s a; discriminate).
  assert (Hv : 1 <= currentAyahNum st_demo < numberOfAyahs surah1) by (cbn; lia).
  pose proof (advance_then_retreat prov_echo st_demo surah1 Hp eq_refl Hv) as H.
  cbv zeta in H.
  split; [exact Hp | split; [reflexivity | split; [exact Hv | exact (proj1 (proj2 H))]]].
Defined.

Lemma selectSurahFromList_failed_witness :
  prov_down (number surah1) 1 = None /\
  handlePrevAyah (run_handler prov_down st_mid9 (selectSurahFromList surah1 st_mid9)) =
  Some (1, 99).
Proof.
  split; [reflexivity|].
  pose proof (selectSurahFromList_failed prov_down st_mid9 surah1 eq_refl) as H.
  cbv zeta in H.
  exact (proj2 (proj2 (proj2 (proj2 (proj2 H)))) ltac:(cbn; lia)).
Defined.

Lemma selectSurahFromList_success_witness :
  prov_echo (number surah9) 1 = Some (mkAyah 9 1 [] [] [] []) /\
  currentAyahNum (run_handler prov_echo st_demo (selectSurahFromList surah9 st_demo)) = 1 /\
  ayahData (run_handler prov_echo st_demo (selectSurahFromList surah9 st_demo)) =
  Some (mkAyah 9 1 [] [] [] []).
Proof.
  split; [reflexivity|].
  pose proof (selectSurahFromList_success prov_echo st_demo surah9 _ eq_refl) as H.
  cbv zeta in H.
  split; [exact (proj1 (proj2 H)) | exact (proj1 (proj2 (proj2 H)))].
Defined.

Lemma empty_list_search_result_no_chapter_witness :
  surahs st_blank = [] /\ currentSurah st_blank = None /\
  handleNextAyah (run_handler prov_echo st_blank (selectSearchResult 2 255 st_blank)) = None.
Proof.
  split; [reflexivity | split; [reflexivity|]].
  pose proof (empty_list_search_result_no_chapter prov_echo st_blank 2 255 eq_refl eq_refl)
    as H.
  cbv zeta in H; exact (proj1 (proj2 H)).
Defined.

Lemma font_sizes_round_trip_witness :
  plain_decimal (Some 40) = true /\ plain_decimal None = true /\
  arabicFontSize_init (persist_fonts (Some 40) None []) = Some 40 /\
  translationFontSize_init (persist_fonts (Some 40) None []) = None.
Proof.
  split; [reflexivity | split; [reflexivity|]].
  exact (proj1 (font_sizes_round_trip []) (Some 40) None eq_refl eq_refl).
Defined.
